(** * QUANTUM-LEAP: the PCM decoder of [services/gemini.ts] and the
    orchestration of [App.tsx] ([handleLeap]).

    The decoder [decodeAudioData] turns the bytes of a base64 PCM payload
    into a Web Audio [AudioBuffer].  Its building blocks are modelled after
    the platform operations it calls:
    - [new Int16Array(data.buffer)]: ECMAScript typed-array view; throws a
      RangeError when the byte length is odd, and reads each element in the
      byte order of the host (the agent's [[LittleEndian]] field, which is
      implementation-defined), here the argument [le];
    - [ctx.createBuffer(numberOfChannels, length, sampleRate)]: Web Audio;
      throws NotSupportedError when a channel count, length or rate is out of
      the context's supported range; [length] is converted by WebIDL
      ([unsigned long]: truncation), the buffer starts out as silence;
    - [Float32Array] element writes: an out-of-range index is ignored.
    JS numbers in the decoder are integers or quotients of a 16-bit integer by
    2^15, which double and float32 represent exactly, so sample values are
    modelled as rationals ([Q]). *)

From Stdlib Require Import ZArith QArith List Bool Lia String Ascii.
From Stdlib Require Import Init.Byte Strings.Byte Qround Qabs Lqa.
Import List ListNotations.

Open Scope Z_scope.

(** ** JS results: a value or a thrown error *)

Inductive js_error :=
| RangeError
| NotSupportedError
| Error (msg : string).

Inductive result (A : Type) :=
| Ok (a : A)
| Throw (e : js_error).
Arguments Ok {A} a.
Arguments Throw {A} e.

Definition bind {A B} (r : result A) (f : A -> result B) : result B :=
  match r with
  | Ok a => f a
  | Throw e => Throw e
  end.

Notation "x <- r ;; f" := (bind r (fun x => f))
  (at level 61, r at next level, right associativity).

(** ** Typed arrays *)

(** A Float32Array element: a number or NaN ([undefined / 32768]). *)
Inductive num :=
| Num (q : Q)
| NaN.

(** Integer-indexed element write: out of range, nothing happens. *)
Fixpoint set_nth {A} (l : list A) (i : nat) (v : A) : list A :=
  match l, i with
  | [], _ => []
  | _ :: t, O => v :: t
  | h :: t, S j => h :: set_nth t j v
  end.

Definition byte_val (b : byte) : Z := Z.of_N (Byte.to_N b).

(** ToInt16 on a 16-bit unsigned pattern. *)
Definition to_int16 (u : Z) : Z := if u <? 32768 then u else u - 65536.

(** RawBytesToNumeric for Int16: the raw bytes are reversed on a big-endian
    host, then read little-endian. *)
Definition load_int16 (le : bool) (b0 b1 : byte) : Z :=
  let lo := if le then b0 else b1 in
  let hi := if le then b1 else b0 in
  to_int16 (byte_val lo + 256 * byte_val hi).

Fixpoint int16_view (le : bool) (bs : list byte) : list Z :=
  match bs with
  | b0 :: b1 :: rest => load_int16 le b0 b1 :: int16_view le rest
  | _ => []
  end.

(** [new Int16Array(buffer)] *)
Definition new_Int16Array (le : bool) (buffer : list byte) : result (list Z) :=
  if Nat.even (length buffer) then Ok (int16_view le buffer)
  else Throw RangeError.

(** ** Web Audio *)

(** The limits of an [AudioContext]: the Web Audio specification requires
    at least 32 channels and the rates 8000..96000 Hz; browsers use e.g. 32
    channels and 3000..768000 Hz. *)
Record AudioContext := {
  max_channels : Z;
  min_rate : Z;
  max_rate : Z
}.

Record AudioBuffer := {
  ab_sampleRate : Z;
  ab_length : Z;
  ab_channels : list (list num)  (** [getChannelData(c)] is the c-th list *)
}.

Definition ab_numberOfChannels (b : AudioBuffer) : nat := length (ab_channels b).

(** [ctx.createBuffer(numberOfChannels, length, sampleRate)] *)
Definition createBuffer (ctx : AudioContext) (numberOfChannels length sampleRate : Z)
  : result AudioBuffer :=
  if (1 <=? numberOfChannels) && (numberOfChannels <=? max_channels ctx)
     && (1 <=? length)
     && (min_rate ctx <=? sampleRate) && (sampleRate <=? max_rate ctx)
  then Ok {| ab_sampleRate := sampleRate;
             ab_length := length;
             ab_channels := repeat (repeat (Num 0) (Z.to_nat length))
                                   (Z.to_nat numberOfChannels) |}
  else Throw NotSupportedError.

(** ** [decodeAudioData] *)

(** [s / 32768.0] *)
Definition sample_value (s : Z) : Q := (inject_Z s / inject_Z 32768)%Q.

(** [dataInt16[k] / 32768.0]; reading past the end gives [undefined], and
    [undefined / 32768] is NaN. *)
Definition read_sample (dataInt16 : list Z) (k : nat) : num :=
  match nth_error dataInt16 k with
  | Some s => Num (sample_value s)
  | None => NaN
  end.

(** [for (let i = 0; i < frameCount; i++)
       channelData[i] = dataInt16[i * numChannels + channel] / 32768.0;]
    with [frameCount = dataInt16.length / numChannels]: for a positive
    [numChannels], [i < frameCount] iff [i * numChannels < dataInt16.length].
    [fuel] bounds the iterations. *)
Fixpoint frame_loop (dataInt16 : list Z) (nc channel : nat) (fuel i : nat)
    (channelData : list num) : list num :=
  match fuel with
  | O => channelData
  | S fuel' =>
      if Nat.ltb (i * nc) (length dataInt16) then
        frame_loop dataInt16 nc channel fuel' (S i)
          (set_nth channelData i (read_sample dataInt16 (i * nc + channel)))
      else channelData
  end.

(** [for (let channel = 0; channel < numChannels; channel++) { ... }];
    [getChannelData(channel)] is a view on the buffer's own storage. *)
Fixpoint channel_loop (dataInt16 : list Z) (nc : nat) (fuel channel : nat)
    (chans : list (list num)) : list (list num) :=
  match fuel with
  | O => chans
  | S fuel' =>
      if Nat.ltb channel nc then
        let channelData := nth channel chans [] in
        channel_loop dataInt16 nc fuel' (S channel)
          (set_nth chans channel
             (frame_loop dataInt16 nc channel (S (length dataInt16)) 0 channelData))
      else chans
  end.

Definition decodeAudioData (le : bool) (data : list byte) (ctx : AudioContext)
    (sampleRate numChannels : Z) : result AudioBuffer :=
  dataInt16 <- new_Int16Array le data ;;
  (* frameCount = dataInt16.length / numChannels, truncated by createBuffer *)
  let frameCount := Z.quot (Z.of_nat (length dataInt16)) numChannels in
  buffer <- createBuffer ctx numChannels frameCount sampleRate ;;
  let nc := Z.to_nat numChannels in
  Ok {| ab_sampleRate := ab_sampleRate buffer;
        ab_length := ab_length buffer;
        ab_channels := channel_loop dataInt16 nc (S nc) 0 (ab_channels buffer) |}.

(** A browser-like context. *)
Definition browser_ctx : AudioContext :=
  {| max_channels := 32; min_rate := 3000; max_rate := 768000 |}.

(** ** [generateLeapAudio] and its base64 helper *)

(** Uint8Array element store: ToUint8. *)
Definition byte_of_Z (z : Z) : byte :=
  match Byte.of_N (Z.to_N (z mod 256)) with
  | Some b => b
  | None => x00
  end.

(** [decode(base64)]: [atob] (browser, given as an argument: the code units
    of the binary string, or a thrown error), then one byte per code unit. *)
Definition decode (atob : string -> result (list Z)) (base64 : string)
  : result (list byte) :=
  binaryString <- atob base64 ;;
  Ok (map byte_of_Z binaryString).

(** [generateLeapAudio(script, audioContext)]: [inlineData] is
    [response.candidates?.[0]?.content?.parts?.[0]?.inlineData?.data] of the
    speech service's answer to [script]; [""] and [undefined] are falsy. *)
Definition generateLeapAudio (atob : string -> result (list Z)) (le : bool)
    (inlineData : option string) (audioContext : AudioContext)
  : result AudioBuffer :=
  match inlineData with
  | None | Some EmptyString => Throw (Error "No audio generated")
  | Some base64Audio =>
      bytes <- decode atob base64Audio ;;
      decodeAudioData le bytes audioContext 24000 1
  end.

(** ** [App]: state and [handleLeap] *)

(** Strings are sequences of Latin-1 code units ([ascii] is 8-bit). *)
Definition is_ws (c : ascii) : bool :=
  let n := nat_of_ascii c in
  (Nat.eqb n 9) || (Nat.eqb n 10) || (Nat.eqb n 11) || (Nat.eqb n 12)
  || (Nat.eqb n 13) || (Nat.eqb n 32) || (Nat.eqb n 160).

Fixpoint trim_start (s : string) : string :=
  match s with
  | EmptyString => EmptyString
  | String c s' => if is_ws c then trim_start s' else s
  end.

Fixpoint rev_string (s : string) : string :=
  match s with
  | EmptyString => EmptyString
  | String c s' => (rev_string s' ++ String c EmptyString)%string
  end.

(** [String.prototype.trim] *)
Definition trim (s : string) : string :=
  rev_string (trim_start (rev_string (trim_start s))).

Definition lower_char (c : ascii) : ascii :=
  let n := nat_of_ascii c in
  if ((Nat.leb 65 n) && (Nat.leb n 90))
     || ((Nat.leb 192 n) && (Nat.leb n 222) && negb (Nat.eqb n 215))
  then ascii_of_nat (n + 32) else c.

(** [String.prototype.toLowerCase] *)
Fixpoint toLowerCase (s : string) : string :=
  match s with
  | EmptyString => EmptyString
  | String c s' => String (lower_char c) (toLowerCase s')
  end.

(** [s.includes(pat)] *)
Fixpoint includes (s pat : string) : bool :=
  String.prefix pat s ||
  match s with
  | EmptyString => false
  | String _ s' => includes s' pat
  end.

Record ChartDataPoint := {
  label : string;
  value : Q;
  unit : option string
}.

Record LeapManifest := {
  summary : string;
  chartTitle : string;
  chartData : list ChartDataPoint;
  imagePrompt : string;
  audioScript : string;
  colors : list string
}.

Inductive Status := idle | analyzing | generating_media | complete | error.

Record LeapState := {
  status : Status;
  manifest : option LeapManifest;
  imageData : option string;
  audioBuffer : option AudioBuffer;
  error_msg : option string   (** [error?: string] *)
}.

(** The component's state: [topic], [showGate], [state]. *)
Record App := {
  topic : string;
  showGate : bool;
  state : LeapState
}.

(** The collaborators [handleLeap] awaits, as the outcomes they produce. *)
Record Collaborators := {
  generateManifest_c : string -> result LeapManifest;
  newAudioContext : result AudioContext;
  generateLeapImage_c : string -> result string;
  generateLeapAudio_c : string -> AudioContext -> result AudioBuffer
}.

(** The calls [handleLeap] makes, in order. *)
Inductive call :=
| CallManifest (topic : string)
| OpenAudioContext
| CallImage (prompt : string)
| CallAudio (script : string).

Definition partial_failure_msg : string :=
  "Partial system failure. Some media elements could not be synthesized.".
Definition critical_failure_msg : string :=
  "CRITICAL FAILURE: Unable to bridge the quantum gap. Try a different topic.".

Definition set_state (a : App) (s : LeapState) : App :=
  {| topic := topic a; showGate := showGate a; state := s |}.

(** [setState(prev => ({ ...prev, status: 'error', error: ... }))] *)
Definition fail_state (prev : LeapState) : LeapState :=
  {| status := error; manifest := manifest prev; imageData := imageData prev;
     audioBuffer := audioBuffer prev; error_msg := Some critical_failure_msg |}.

Definition settled {A} (r : result A) : option A :=
  match r with Ok a => Some a | Throw _ => None end.

Definition rejected {A} (r : result A) : bool :=
  match r with Ok _ => false | Throw _ => true end.

(** [handleLeap], run to completion: the final component state and the
    calls made.  The awaited outcomes come from [col]. *)
Definition handleLeap (col : Collaborators) (app : App) : App * list call :=
  let t := topic app in
  if String.eqb (trim t) EmptyString then (app, [])
  else if includes (toLowerCase t) "aether" || includes (toLowerCase t) "event" then
    ({| topic := EmptyString; showGate := true; state := state app |}, [])
  else
    let s1 := {| status := analyzing; manifest := None; imageData := None;
                 audioBuffer := None; error_msg := None |} in
    match generateManifest_c col t with
    | Throw _ => (set_state app (fail_state s1), [CallManifest t])
    | Ok m =>
        let s2 := {| status := generating_media; manifest := Some m;
                     imageData := imageData s1; audioBuffer := audioBuffer s1;
                     error_msg := error_msg s1 |} in
        match newAudioContext col with
        | Throw _ => (set_state app (fail_state s2), [CallManifest t; OpenAudioContext])
        | Ok audioCtx =>
            let imgData := generateLeapImage_c col (imagePrompt m) in
            let audioBuf := generateLeapAudio_c col (audioScript m) audioCtx in
            let s3 := {| status := complete; manifest := manifest s2;
                         imageData := settled imgData;
                         audioBuffer := settled audioBuf;
                         error_msg := if rejected imgData || rejected audioBuf
                                      then Some partial_failure_msg else None |} in
            (set_state app s3,
             [CallManifest t; OpenAudioContext;
              CallImage (imagePrompt m); CallAudio (audioScript m)])
        end
    end.

(** ** Reading aids for the statements *)

(** A byte read as a two's-complement 8-bit integer. *)
Definition to_int8 (u : Z) : Z := if u <? 128 then u else u - 256.

(** The two bytes of a 16-bit sample in a byte order, as an Int16Array
    store writes them (ToInt16 wraps modulo 2^16). *)
Definition encode_int16 (le : bool) (k : Z) : list byte :=
  let u := k mod 65536 in
  let lo := byte_of_Z u in
  let hi := byte_of_Z (u / 256) in
  if le then [lo; hi] else [hi; lo].

Definition encode_samples (le : bool) (samples : list Z) : list byte :=
  flat_map (encode_int16 le) samples.

(** The inverse of the normalization: scale by 32768 and round down. *)
Definition quantize (f : Q) : Z := Qfloor (f * inject_Z 32768).

(** The de-interleaved channels: [channelData[c][i] = raw[i * nc + c] / 32768]
    for [c < nc] and [i < len]. *)
Definition deinterleave (raw : list Z) (nc len : nat) : list (list num) :=
  map (fun c => map (fun i => Num (sample_value (nth (i * nc + c) raw 0)))
                    (seq 0 len))
      (seq 0 nc).

(** ** Concrete inputs *)

(** [atob] on the one payload used below: "AEA=" is the bytes [00 40]. *)
Definition demo_atob (s : string) : result (list Z) :=
  if String.eqb s "AEA=" then Ok [0; 64] else Throw (Error "InvalidCharacterError").

Definition demo_manifest : LeapManifest :=
  {| summary := "Regions of spacetime.";
     chartTitle := "Mass";
     chartData := [{| label := "Sgr A*"; value := 4; unit := Some "M"%string |}];
     imagePrompt := "a black hole";
     audioScript := "Did you know?";
     colors := ["#000000"%string; "#ffffff"%string] |}.

(** The manifest and the audio succeed, the image fails. *)
Definition demo_collaborators : Collaborators :=
  {| generateManifest_c := fun _ => Ok demo_manifest;
     newAudioContext := Ok browser_ctx;
     generateLeapImage_c := fun _ => Throw (Error "No image generated");
     generateLeapAudio_c := fun script ctx =>
       generateLeapAudio demo_atob true (Some "AEA="%string) ctx |}.

Definition idle_state : LeapState :=
  {| status := idle; manifest := None; imageData := None; audioBuffer := None;
     error_msg := None |}.

Definition demo_app (t : string) : App :=
  {| topic := t; showGate := false; state := idle_state |}.

(** ** [generateLeapImage] *)








(** ** [LeapDashboard]: audio playback *)

(** The sources created by [createBufferSource], by creation order. *)
Inductive source_state := Playing | Stopped | Ended.

Record Dashboard := {
  isPlaying : bool;
  sourceRef : option nat;          (** index into [sources] *)
  audioContextRef : bool;          (** set by the mount effect *)
  sources : list source_state
}.

(** After the mount effect has created the audio context. *)
Definition dashboard_mounted : Dashboard :=
  {| isPlaying := false; sourceRef := None; audioContextRef := true;
     sources := [] |}.

(** [source.stop()]: a playing source stops; otherwise no change. *)
Definition stop_source (srcs : list source_state) (n : nat) : list source_state :=
  match nth_error srcs n with
  | Some Playing => set_nth srcs n Stopped
  | _ => srcs
  end.

(** [toggleAudio] for the [audioBuffer] prop. *)
Definition toggleAudio (audioBuffer : option AudioBuffer) (d : Dashboard) : Dashboard :=
  match audioBuffer with
  | None => d
  | Some _ =>
      if negb (audioContextRef d) then d
      else if isPlaying d then
        {| isPlaying := false; sourceRef := None;
           audioContextRef := audioContextRef d;
           sources := match sourceRef d with
                      | Some s => stop_source (sources d) s
                      | None => sources d
                      end |}
      else
        {| isPlaying := true; sourceRef := Some (length (sources d));
           audioContextRef := audioContextRef d;
           sources := sources d ++ [Playing] |}
  end.

(** [source.onended = () => setIsPlaying(false)] firing for source [n]
    (after it played to its end, or after [stop()]). *)
Definition source_ended (n : nat) (d : Dashboard) : Dashboard :=
  {| isPlaying := false; sourceRef := sourceRef d;
     audioContextRef := audioContextRef d;
     sources := match nth_error (sources d) n with
                | Some Playing => set_nth (sources d) n Ended
                | _ => sources d
                end |}.

(** The unmount cleanup: [if (sourceRef.current) sourceRef.current.stop();] *)
Definition unmount (d : Dashboard) : Dashboard :=
  {| isPlaying := isPlaying d; sourceRef := sourceRef d;
     audioContextRef := audioContextRef d;
     sources := match sourceRef d with
                | Some s => stop_source (sources d) s
                | None => sources d
                end |}.

Inductive dash_event := Toggle | SourceEnded (n : nat) | Unmount.

Definition dash_step (audioBuffer : option AudioBuffer) (d : Dashboard)
    (e : dash_event) : Dashboard :=
  match e with
  | Toggle => toggleAudio audioBuffer d
  | SourceEnded n => source_ended n d
  | Unmount => unmount d
  end.

Definition dash_run (audioBuffer : option AudioBuffer) (evs : list dash_event)
  : Dashboard :=
  fold_left (dash_step audioBuffer) evs dashboard_mounted.

(** ** [AetherGate]: the terminal log *)

(** [arr.slice(-n)] *)
Definition slice_from_end {A} (n : nat) (l : list A) : list A :=
  skipn (length l - n) l.

(** [addLog(msg)]: [setLog(prev => [...prev.slice(-6), `> ${msg}`])] *)
Definition addLog (prev : list string) (msg : string) : list string :=
  slice_from_end 6 prev ++ [("> " ++ msg)%string].

Definition DESTINATION_GLYPHS : list string :=
  ["ALPHA"; "ORION"; "PEGASUS"; "EARTH"; "ABYSS"; "VOID"; "TAURUS"; "EAGLE";
   "SOURCE"]%string.

Inductive GatePhase := init | dialing | locked | broadcast.

(** The oscillators [playTriad(index)] pushes to [oscillatorsRef]: one per
    frequency of [TRIADS[index % TRIADS.length]], as (triad, position). *)
Definition triad_oscillators (index : nat) : list (nat * nat) :=
  map (fun k => (index mod length DESTINATION_GLYPHS, k)%nat) [0; 1; 2]%nat.

Record Gate := {
  phase : GatePhase;
  log : list string;
  activeGlyph : Z;
  oscillatorsRef : list (nat * nat);
  step : nat;                 (** the interval callback's [step] *)
  interval_on : bool          (** not yet [clearInterval]ed *)
}.

(** The state once [startEvent] has resumed the context and started the
    interval (the audio context exists from then on). *)
Definition gate_started : Gate :=
  {| phase := dialing;
     log := addLog (addLog [] "INITIATING AETHER GATE PROTOCOL v1.0")
                   "BYPASSING SECURITY LAYER 7...";
     activeGlyph := -1; oscillatorsRef := []; step := 0; interval_on := true |}.

(** [finalizeEvent()] up to its [setTimeout]; the 111 Hz oscillator it
    starts is not pushed to [oscillatorsRef]. *)
Definition finalizeEvent (g : Gate) : Gate :=
  {| phase := locked;
     log := addLog (addLog (log g) "ALL CHEVRONS LOCKED.") "COHERENCE WAVE ACTIVE.";
     activeGlyph := Z.of_nat (length DESTINATION_GLYPHS);
     oscillatorsRef := oscillatorsRef g; step := step g;
     interval_on := interval_on g |}.

(** One run of the interval callback. *)
Definition gate_tick (g : Gate) : Gate :=
  if negb (interval_on g) then g
  else if Nat.leb (length DESTINATION_GLYPHS) (step g) then
    finalizeEvent
      {| phase := phase g; log := log g; activeGlyph := activeGlyph g;
         oscillatorsRef := oscillatorsRef g; step := step g;
         interval_on := false |}
  else
    {| phase := phase g;
       log := addLog (log g) ("LOCKING COORDINATE: "
                              ++ nth (step g) DESTINATION_GLYPHS "")%string;
       activeGlyph := Z.of_nat (step g);
       oscillatorsRef := oscillatorsRef g ++ triad_oscillators (step g);
       step := S (step g);
       interval_on := interval_on g |}.

(** ** Reading aids for the further properties *)



(** The playback invariant: while the button shows "stop", [sourceRef]
    holds a source that is playing. *)
Definition playing_inv (d : Dashboard) : Prop :=
  isPlaying d = true ->
  exists s, sourceRef d = Some s /\ nth_error (sources d) s = Some Playing.

(** ** Further concrete inputs *)

(** The text service returns no text. *)
Definition no_text_collaborators : Collaborators :=
  {| generateManifest_c := fun _ => Throw (Error "No text returned from Gemini");
     newAudioContext := Ok browser_ctx;
     generateLeapImage_c := fun _ => Ok "iVBORw0KGgo="%string;
     generateLeapAudio_c := fun _ ctx =>
       generateLeapAudio demo_atob true (Some "AEA="%string) ctx |}.

(** The AudioContext constructor throws. *)
Definition no_audio_context_collaborators : Collaborators :=
  {| generateManifest_c := fun _ => Ok demo_manifest;
     newAudioContext := Throw NotSupportedError;
     generateLeapImage_c := fun _ => Ok "iVBORw0KGgo="%string;
     generateLeapAudio_c := fun _ ctx =>
       generateLeapAudio demo_atob true (Some "AEA="%string) ctx |}.

(** [atob] giving a single byte. *)
Definition one_byte_atob (s : string) : result (list Z) := Ok [0].

(** The speech payload decodes to one byte. *)
Definition odd_audio_collaborators : Collaborators :=
  {| generateManifest_c := fun _ => Ok demo_manifest;
     newAudioContext := Ok browser_ctx;
     generateLeapImage_c := fun _ => Ok "iVBORw0KGgo="%string;
     generateLeapAudio_c := fun _ ctx =>
       generateLeapAudio one_byte_atob true (Some "AA=="%string) ctx |}.




Definition demo_buffer : AudioBuffer :=
  {| ab_sampleRate := 24000; ab_length := 1; ab_channels := [[Num 0]] |}.

(** ** Lemmas on the typed-array and loop model *)

Ltac bool_cases :=
  repeat match goal with
  | |- context [Nat.leb ?a ?b] => destruct (Nat.leb_spec0 a b)
  | |- context [Nat.ltb ?a ?b] => destruct (Nat.ltb_spec0 a b)
  | |- context [Nat.eqb ?a ?b] => destruct (Nat.eqb_spec a b)
  end; cbn [andb].

Lemma length_set_nth {A} (l : list A) i v : length (set_nth l i v) = length l.
Proof. revert i; induction l as [|h t IH]; intros [|i]; simpl; auto. Qed.

Lemma nth_error_set_nth {A} (l : list A) i v j :
  nth_error (set_nth l i v) j =
  if Nat.eqb i j then option_map (fun _ => v) (nth_error l j) else nth_error l j.
Proof.
  revert i j; induction l as [|h t IH]; intros [|i] [|j]; simpl; auto.
  - destruct (Nat.eqb i j); reflexivity.
Qed.

Lemma nth_error_frame_loop data nc c fuel : forall i ch j,
  nth_error (frame_loop data nc c fuel i ch) j =
  if Nat.leb i j && Nat.ltb j (i + fuel) && Nat.ltb (j * nc) (length data)
  then option_map (fun _ => read_sample data (j * nc + c)) (nth_error ch j)
  else nth_error ch j.
Proof.
  induction fuel as [|fuel IH]; intros i ch j; cbn [frame_loop].
  - bool_cases; auto; lia.
  - destruct (Nat.ltb_spec0 (i * nc) (length data)) as [Hlt|Hge].
    + rewrite IH, nth_error_set_nth.
      bool_cases; subst; auto; try lia.
    + bool_cases; auto.
      exfalso. apply Hge. eapply Nat.le_lt_trans; [|eassumption].
      apply Nat.mul_le_mono_r. assumption.
Qed.

Lemma length_frame_loop data nc c fuel : forall i ch,
  length (frame_loop data nc c fuel i ch) = length ch.
Proof.
  induction fuel as [|fuel IH]; intros i ch; simpl; auto.
  destruct (Nat.ltb _ _); auto. rewrite IH, length_set_nth. reflexivity.
Qed.

Lemma nth_error_channel_loop data nc fuel : forall c0 chs c,
  nth_error (channel_loop data nc fuel c0 chs) c =
  if Nat.leb c0 c && Nat.ltb c (c0 + fuel) && Nat.ltb c nc
  then option_map (fun ch => frame_loop data nc c (S (length data)) 0 ch)
                  (nth_error chs c)
  else nth_error chs c.
Proof.
  induction fuel as [|fuel IH]; intros c0 chs c; cbn [channel_loop].
  - bool_cases; auto; lia.
  - destruct (Nat.ltb_spec0 c0 nc) as [Hlt|Hge].
    + rewrite IH, nth_error_set_nth.
      bool_cases; subst; auto; try lia.
      destruct (nth_error chs c) as [ch|] eqn:E; simpl; auto.
      erewrite nth_error_nth; [reflexivity|exact E].
    + bool_cases; auto; lia.
Qed.

Lemma frame_loop_fill data nc c len :
  (c < nc)%nat -> (len * nc <= length data)%nat ->
  frame_loop data nc c (S (length data)) 0 (repeat (Num 0) len)
  = map (fun i => Num (sample_value (nth (i * nc + c) data 0))) (seq 0 len).
Proof.
  intros Hc Hlen. apply nth_error_ext; intro j.
  rewrite nth_error_frame_loop, nth_error_map, nth_error_seq.
  destruct (Nat.ltb_spec0 j len) as [Hj|Hj].
  - rewrite nth_error_repeat by exact Hj.
    assert (Hin : (j * nc + c < length data)%nat) by nia.
    bool_cases; try nia.
    unfold read_sample. rewrite (nth_error_nth' data 0) by exact Hin.
    reflexivity.
  - rewrite (proj2 (nth_error_None _ _)) by (rewrite repeat_length; lia).
    destruct (_ && _ && _); reflexivity.
Qed.

Lemma channel_loop_fill data nc len :
  (len * nc <= length data)%nat ->
  channel_loop data nc (S nc) 0 (repeat (repeat (Num 0) len) nc)
  = deinterleave data nc len.
Proof.
  intros Hlen. apply nth_error_ext; intro c. unfold deinterleave.
  rewrite nth_error_channel_loop, nth_error_map, nth_error_seq.
  destruct (Nat.ltb_spec0 c nc) as [Hc|Hc].
  - rewrite nth_error_repeat by exact Hc.
    bool_cases; try lia. cbn [option_map].
    rewrite frame_loop_fill by assumption. reflexivity.
  - rewrite (proj2 (nth_error_None _ _)) by (rewrite repeat_length; lia).
    destruct (_ && _ && _); reflexivity.
Qed.

Lemma length_int16_view le : forall bs, length (int16_view le bs) = (length bs / 2)%nat.
Proof.
  fix IH 1. intros [|b0 [|b1 rest]]; try reflexivity.
  cbn [int16_view length]. rewrite IH.
  replace (S (S (length rest))) with (length rest + 1 * 2)%nat by lia.
  rewrite Nat.div_add by lia. lia.
Qed.

(** [decodeAudioData] in closed form. *)
Lemma decodeAudioData_eq le data ctx sr nc :
  decodeAudioData le data ctx sr nc =
  if Nat.even (length data) then
    let fc := Z.quot (Z.of_nat (length data / 2)) nc in
    if (1 <=? nc) && (nc <=? max_channels ctx) && (1 <=? fc)
       && (min_rate ctx <=? sr) && (sr <=? max_rate ctx)
    then Ok {| ab_sampleRate := sr; ab_length := fc;
               ab_channels := deinterleave (int16_view le data) (Z.to_nat nc)
                                           (Z.to_nat fc) |}
    else Throw NotSupportedError
  else Throw RangeError.
Proof.
  unfold decodeAudioData, new_Int16Array.
  destruct (Nat.even (length data)); [|reflexivity].
  cbn [bind]. rewrite length_int16_view. unfold createBuffer. cbv zeta.
  set (fc := Z.quot (Z.of_nat (length data / 2)) nc).
  destruct ((1 <=? nc) && (nc <=? max_channels ctx) && (1 <=? fc)
            && (min_rate ctx <=? sr) && (sr <=? max_rate ctx)) eqn:E;
    [|reflexivity].
  cbn [bind ab_sampleRate ab_length ab_channels].
  rewrite channel_loop_fill; [reflexivity|].
  repeat rewrite andb_true_iff in E. rewrite !Z.leb_le in E.
  rewrite length_int16_view.
  assert (Hq : fc = Z.of_nat (length data / 2) / nc)
    by (apply Z.quot_div_nonneg; lia).
  assert (Hm : nc * fc <= Z.of_nat (length data / 2))
    by (rewrite Hq; apply Z.mul_div_le; lia).
  nia.
Qed.

Lemma byte_val_bounds b : 0 <= byte_val b <= 255.
Proof.
  unfold byte_val. pose proof (Byte.to_N_bounded b). lia.
Qed.

Lemma load_int16_eq le b0 b1 :
  load_int16 le b0 b1 =
  byte_val (if le then b0 else b1) + 256 * to_int8 (byte_val (if le then b1 else b0)).
Proof.
  unfold load_int16, to_int16, to_int8.
  pose proof (byte_val_bounds b0). pose proof (byte_val_bounds b1).
  destruct le;
    repeat match goal with
    | |- context [?a <? ?b] => destruct (Z.ltb_spec a b)
    end; lia.
Qed.

Lemma nth_error_int16_view le : forall k bs,
  (2 * k + 1 < length bs)%nat ->
  nth_error (int16_view le bs) k
  = Some (load_int16 le (nth (2 * k) bs x00) (nth (2 * k + 1) bs x00)).
Proof.
  induction k as [|k IH]; intros [|b0 [|b1 rest]] H; cbn [length] in H; try lia.
  - reflexivity.
  - cbn [int16_view nth_error].
    replace (2 * S k)%nat with (S (S (2 * k))) by lia.
    replace (S (S (2 * k)) + 1)%nat with (S (S (2 * k + 1))) by lia.
    cbn [nth]. apply IH. lia.
Qed.

Lemma quot_mul_le m nc : 0 <= m -> 1 <= nc -> nc * Z.quot m nc <= m.
Proof.
  intros Hm Hnc. rewrite Z.quot_div_nonneg by lia. apply Z.mul_div_le. lia.
Qed.

(** What a successful run of the decoder tells. *)
Lemma decodeAudioData_ok_inv le data ctx sr nc buf :
  decodeAudioData le data ctx sr nc = Ok buf ->
  Nat.even (length data) = true /\ 1 <= nc <= max_channels ctx
  /\ min_rate ctx <= sr <= max_rate ctx
  /\ 1 <= Z.quot (Z.of_nat (length data / 2)) nc
  /\ buf = {| ab_sampleRate := sr;
              ab_length := Z.quot (Z.of_nat (length data / 2)) nc;
              ab_channels := deinterleave (int16_view le data) (Z.to_nat nc)
                               (Z.to_nat (Z.quot (Z.of_nat (length data / 2)) nc)) |}.
Proof.
  rewrite decodeAudioData_eq. cbv zeta.
  destruct (Nat.even (length data)); [|discriminate].
  destruct ((1 <=? nc) && (nc <=? max_channels ctx)
            && (1 <=? Z.quot (Z.of_nat (length data / 2)) nc)
            && (min_rate ctx <=? sr) && (sr <=? max_rate ctx)) eqn:E;
    [|discriminate].
  intros H. injection H as <-.
  repeat rewrite andb_true_iff in E. rewrite !Z.leb_le in E.
  repeat split; tauto.
Qed.

Lemma nth_error_deinterleave raw nc len c i :
  (c < nc)%nat -> (i < len)%nat ->
  exists ch, nth_error (deinterleave raw nc len) c = Some ch
             /\ nth_error ch i = Some (Num (sample_value (nth (i * nc + c) raw 0))).
Proof.
  intros Hc Hi. unfold deinterleave.
  rewrite nth_error_map, nth_error_seq.
  destruct (Nat.ltb_spec0 c nc); [|lia]. cbn [option_map].
  eexists; split; [reflexivity|].
  rewrite nth_error_map, nth_error_seq.
  destruct (Nat.ltb_spec0 i len); [|lia]. reflexivity.
Qed.

Lemma length_deinterleave raw nc len :
  length (deinterleave raw nc len) = nc
  /\ Forall (fun ch => length ch = len) (deinterleave raw nc len).
Proof.
  unfold deinterleave. rewrite length_map, length_seq. split; [reflexivity|].
  apply Forall_map, Forall_forall. intros c _.
  rewrite length_map, length_seq. reflexivity.
Qed.

(** C1 (as amended): whenever the decoder returns a buffer, it has
    [channelCount] channels of [floor(sampleCount / channelCount)] frames, and
    channel [c], frame [i] holds [rawSample[i * channelCount + c] / 32768],
    where [rawSample] is the Int16Array view of the bytes in the host's byte
    order and the index is always inside the sample sequence. *)
Theorem decodeAudioData_deinterleaves le data ctx sr nc buf :
  decodeAudioData le data ctx sr nc = Ok buf ->
  ab_length buf = Z.quot (Z.of_nat (length data / 2)) nc
  /\ length (ab_channels buf) = Z.to_nat nc
  /\ forall c i, (c < Z.to_nat nc)%nat -> (i < Z.to_nat (ab_length buf))%nat ->
       (i * Z.to_nat nc + c < length data / 2)%nat
       /\ exists ch, nth_error (ab_channels buf) c = Some ch
          /\ nth_error ch i
             = Some (Num (sample_value (nth (i * Z.to_nat nc + c)
                                            (int16_view le data) 0))).
Proof.
  intros H. apply decodeAudioData_ok_inv in H.
  destruct H as (_ & Hnc & _ & Hfc & ->). cbn [ab_length ab_channels].
  split; [reflexivity|]. split; [apply length_deinterleave|].
  intros c i Hc Hi. split.
  - pose proof (quot_mul_le (Z.of_nat (length data / 2)) nc ltac:(lia) ltac:(lia)).
    nia.
  - apply nth_error_deinterleave; assumption.
Qed.

(** C1, counterexample: on a big-endian host the bytes [01 00] decode to
    256/32768, not to the little-endian sample 1 divided by 32768. *)
Lemma decodeAudioData_big_endian_cex :
  decodeAudioData false [x01; x00] browser_ctx 24000 1
  = Ok {| ab_sampleRate := 24000; ab_length := 1;
          ab_channels := [[Num (sample_value 256)]] |}
  /\ byte_val x01 + 256 * to_int8 (byte_val x00) = 1
  /\ ~ (sample_value 256 == sample_value 1)%Q.
Proof.
  split; [vm_compute; reflexivity|]. split; [reflexivity|].
  vm_compute. discriminate.
Qed.

(** C2 (as amended): an odd byte length makes the Int16Array view throw a
    RangeError.  For an even byte length, a channel count and rate the
    context accepts: a frame count [floor((byteLength/2) / channelCount)] of
    0 makes [createBuffer] throw NotSupportedError; otherwise no exception is
    raised, the output has that many frames per channel and the trailing
    samples are dropped. *)
Theorem decodeAudioData_truncates le data ctx sr nc :
  (Nat.even (length data) = false ->
   decodeAudioData le data ctx sr nc = Throw RangeError)
  /\ (Nat.even (length data) = true -> 1 <= nc <= max_channels ctx ->
      min_rate ctx <= sr <= max_rate ctx ->
      (Z.of_nat (length data / 2) / nc = 0 ->
       decodeAudioData le data ctx sr nc = Throw NotSupportedError)
      /\ (1 <= Z.of_nat (length data / 2) / nc ->
          exists buf, decodeAudioData le data ctx sr nc = Ok buf
          /\ ab_length buf = Z.of_nat (length data / 2) / nc
          /\ length (ab_channels buf) = Z.to_nat nc
          /\ Forall (fun ch => length ch = Z.to_nat (ab_length buf))
                    (ab_channels buf))).
Proof.
  rewrite decodeAudioData_eq. cbv zeta. split.
  - intros ->. reflexivity.
  - intros Hev Hnc Hsr. rewrite Hev.
    rewrite Z.quot_div_nonneg by lia.
    rewrite (proj2 (Z.leb_le 1 nc)) by lia.
    rewrite (proj2 (Z.leb_le nc _)) by lia.
    rewrite (proj2 (Z.leb_le (min_rate ctx) sr)) by lia.
    rewrite (proj2 (Z.leb_le sr _)) by lia.
    split.
    + intros ->. reflexivity.
    + intros Hfc. rewrite (proj2 (Z.leb_le 1 _)) by lia. cbn [andb].
      eexists; split; [reflexivity|]. cbn [ab_length ab_channels].
      split; [reflexivity|]. apply length_deinterleave.
Qed.

(** C2, counterexample: three bytes (a trailing odd byte) raise a
    RangeError, and two bytes over two channels (zero frames) raise
    NotSupportedError. *)
Lemma decodeAudioData_odd_length_cex :
  decodeAudioData true [x00; x40; x00] browser_ctx 24000 1 = Throw RangeError
  /\ decodeAudioData true [x00; x40] browser_ctx 24000 2 = Throw NotSupportedError.
Proof. split; vm_compute; reflexivity. Qed.

(** C3 (as amended): the bytes are read as an Int16Array view, in the
    host's byte order: raw sample [k] is [bytes[2k] + 256 * toSigned(bytes[2k+1])]
    on a little-endian host and [bytes[2k+1] + 256 * toSigned(bytes[2k])] on a
    big-endian one. *)
Theorem new_Int16Array_host_order le bs k :
  Nat.even (length bs) = true -> (k < length bs / 2)%nat ->
  exists raw, new_Int16Array le bs = Ok raw
  /\ length raw = (length bs / 2)%nat
  /\ nth_error raw k
     = Some (if le
             then byte_val (nth (2 * k) bs x00)
                  + 256 * to_int8 (byte_val (nth (2 * k + 1) bs x00))
             else byte_val (nth (2 * k + 1) bs x00)
                  + 256 * to_int8 (byte_val (nth (2 * k) bs x00))).
Proof.
  intros Hev Hk. unfold new_Int16Array. rewrite Hev.
  eexists; split; [reflexivity|]. split; [apply length_int16_view|].
  rewrite nth_error_int16_view.
  - rewrite load_int16_eq. destruct le; reflexivity.
  - pose proof (Nat.Div0.mul_div_le (length bs) 2). lia.
Qed.

(** C3, counterexample: on a big-endian host the bytes [01 00] are the
    sample 256, where the little-endian reading gives 1. *)
Lemma new_Int16Array_big_endian_cex :
  new_Int16Array false [x01; x00] = Ok [256]
  /\ new_Int16Array true [x01; x00] = Ok [1]
  /\ byte_val x01 + 256 * to_int8 (byte_val x00) = 1.
Proof. repeat split; reflexivity. Qed.

Lemma sample_value_eq s : (sample_value s == s # 32768)%Q.
Proof. unfold sample_value, Qeq, Qdiv, Qmult, Qinv, inject_Z. simpl. lia. Qed.

Lemma int16_view_range le : forall bs s,
  In s (int16_view le bs) -> -32768 <= s <= 32767.
Proof.
  fix IH 1. intros [|b0 [|b1 rest]] s Hin; cbn [int16_view In] in Hin;
    try contradiction.
  destruct Hin as [<-|Hin]; [clear IH|exact (IH rest s Hin)].
  rewrite load_int16_eq. unfold to_int8.
  pose proof (byte_val_bounds b0). pose proof (byte_val_bounds b1).
  destruct le;
    repeat match goal with
    | |- context [?a <? ?b] => destruct (Z.ltb_spec a b)
    end; lia.
Qed.

Lemma sample_value_range s :
  -32768 <= s <= 32767 -> (-1 <= sample_value s /\ sample_value s < 1)%Q.
Proof.
  intros Hs. rewrite sample_value_eq. unfold Qle, Qlt. simpl. lia.
Qed.

Lemma byte_val_byte_of_Z z : byte_val (byte_of_Z z) = z mod 256.
Proof.
  unfold byte_val, byte_of_Z.
  pose proof (Byte.to_of_N_option_map (Z.to_N (z mod 256))) as H.
  assert (Hz : 0 <= z mod 256 < 256) by (apply Z.mod_pos_bound; lia).
  assert (Hle : N.leb (Z.to_N (z mod 256)) 255 = true) by (apply N.leb_le; lia).
  rewrite Hle in H.
  destruct (Byte.of_N (Z.to_N (z mod 256))) as [b|]; [|discriminate].
  injection H as H. rewrite H. lia.
Qed.

Lemma int16_view_encode le k :
  -32768 <= k <= 32767 -> int16_view le (encode_int16 le k) = [k].
Proof.
  intros Hk. unfold encode_int16.
  assert (Hl : load_int16 le
                 (if le then byte_of_Z (k mod 65536) else byte_of_Z (k mod 65536 / 256))
                 (if le then byte_of_Z (k mod 65536 / 256) else byte_of_Z (k mod 65536))
               = k).
  { assert (Hu : to_int16 (k mod 65536 mod 256 + 256 * (k mod 65536 / 256 mod 256)) = k).
    { unfold to_int16.
      destruct (Z.ltb_spec (k mod 65536 mod 256 + 256 * (k mod 65536 / 256 mod 256)) 32768);
        Z.div_mod_to_equations; lia. }
    unfold load_int16. destruct le; cbv beta iota zeta;
      rewrite !byte_val_byte_of_Z; exact Hu. }
  destruct le; cbn [int16_view]; rewrite Hl; reflexivity.
Qed.

(** C4: the normalization is [s / 32768] for every 16-bit sample [s]: -32768
    maps to exactly -1 and 32767 to 32767/32768, below 1.  For one channel and
    the samples [0; 16384; -32768; 32767] (in the host's byte order) the
    output is one channel of 4 frames holding [0; 0.5; -1; 32767/32768]. *)
Theorem decodeAudioData_normalization le ctx sr :
  1 <= max_channels ctx -> min_rate ctx <= sr <= max_rate ctx ->
  (forall s, sample_value s == s # 32768)%Q
  /\ exists buf,
     decodeAudioData le (encode_samples le [0; 16384; -32768; 32767]) ctx sr 1
     = Ok buf
     /\ ab_length buf = 4
     /\ ab_channels buf = [[Num (sample_value 0); Num (sample_value 16384);
                            Num (sample_value (-32768)); Num (sample_value 32767)]]
     /\ (sample_value 0 == 0 /\ sample_value 16384 == 1 # 2
         /\ sample_value (-32768) == -1 /\ sample_value 32767 == 32767 # 32768
         /\ sample_value 32767 < 1)%Q.
Proof.
  intros Hc Hr. split; [exact sample_value_eq|].
  rewrite decodeAudioData_eq.
  assert (Hev : Nat.even (length (encode_samples le [0; 16384; -32768; 32767])) = true)
    by (destruct le; reflexivity).
  assert (Hlen : Z.quot (Z.of_nat (length (encode_samples le [0; 16384; -32768; 32767]) / 2)) 1 = 4)
    by (destruct le; reflexivity).
  rewrite Hev. cbv zeta. rewrite Hlen.
  rewrite (proj2 (Z.leb_le 1 (max_channels ctx))) by lia.
  rewrite (proj2 (Z.leb_le (min_rate ctx) sr)) by lia.
  rewrite (proj2 (Z.leb_le sr _)) by lia. cbn [andb Z.leb Z.compare].
  eexists; split; [reflexivity|]. cbn [ab_length ab_channels].
  split; [reflexivity|]. split.
  - destruct le; vm_compute; reflexivity.
  - vm_compute. repeat split; discriminate || reflexivity.
Qed.

(** C5: every sample of every channel of a buffer the decoder returns is a
    number in [-1, 1). *)
Theorem decodeAudioData_samples_in_range le data ctx sr nc buf :
  decodeAudioData le data ctx sr nc = Ok buf ->
  Forall (Forall (fun v => exists q, v = Num q /\ (-1 <= q /\ q < 1)%Q))
         (ab_channels buf).
Proof.
  intros H. apply decodeAudioData_ok_inv in H.
  destruct H as (_ & _ & _ & _ & ->). cbn [ab_channels]. unfold deinterleave.
  apply Forall_map, Forall_forall. intros c _.
  apply Forall_map, Forall_forall. intros i _.
  eexists; split; [reflexivity|]. apply sample_value_range.
  destruct (nth_in_or_default (i * Z.to_nat nc + c) (int16_view le data) 0) as [Hin | Hd]; [|rewrite Hd].
  - exact (int16_view_range le data _ Hin).
  - lia.
Qed.

Lemma quantize_bounds f :
  (-1 <= f /\ f < 1)%Q ->
  -32768 <= quantize f <= 32767
  /\ (Qabs (sample_value (quantize f) - f) <= 1 # 32768)%Q.
Proof.
  intros [H1 H2].
  assert (H3 : (inject_Z (quantize f) <= f * inject_Z 32768)%Q) by apply Qfloor_le.
  assert (H4 : (f * inject_Z 32768 < inject_Z (quantize f + 1))%Q) by apply Qlt_floor.
  assert (Hs : (sample_value (quantize f) == inject_Z (quantize f) * (1 # 32768))%Q).
  { rewrite sample_value_eq. unfold Qeq, inject_Z, Qmult. simpl. lia. }
  rewrite Hs. rewrite inject_Z_plus in H4.
  change (inject_Z 32768) with (32768 # 1) in *. change (inject_Z 1) with (1 # 1) in *.
  split.
  - assert (A : (inject_Z (quantize f) < 32768 # 1)%Q) by lra.
    assert (B : (-32769 # 1 < inject_Z (quantize f))%Q) by lra.
    unfold Qlt in A, B. simpl in A, B. lia.
  - apply Qabs_Qle_condition. split; lra.
Qed.

(** C6: a float sample [f] in [-1, 1), quantized to the 16-bit sample
    [floor(f * 32768)], written as two bytes and decoded again (one channel),
    comes back as a value within 1/32768 of [f]. *)
Theorem decodeAudioData_roundtrip le ctx sr f :
  1 <= max_channels ctx -> min_rate ctx <= sr <= max_rate ctx ->
  (-1 <= f /\ f < 1)%Q ->
  exists v,
    decodeAudioData le (encode_int16 le (quantize f)) ctx sr 1
    = Ok {| ab_sampleRate := sr; ab_length := 1; ab_channels := [[Num v]] |}
    /\ (Qabs (v - f) <= 1 # 32768)%Q.
Proof.
  intros Hc Hr Hf. destruct (quantize_bounds f Hf) as [Hk Herr].
  exists (sample_value (quantize f)). split; [|exact Herr].
  rewrite decodeAudioData_eq.
  assert (Hlen : length (encode_int16 le (quantize f)) = 2%nat)
    by (destruct le; reflexivity).
  rewrite Hlen. cbn [Nat.even Nat.div Nat.divmod fst Z.of_nat]. cbv zeta.
  rewrite (proj2 (Z.leb_le 1 (max_channels ctx))) by lia.
  rewrite (proj2 (Z.leb_le (min_rate ctx) sr)) by lia.
  rewrite (proj2 (Z.leb_le sr _)) by lia.
  rewrite int16_view_encode by exact Hk. reflexivity.
Qed.

(** C7 (as amended): [sampleRate] never reaches a sample value.  Two runs
    that differ only in [sampleRate] and both return a buffer have the same
    channel data and length, and each buffer carries its own [sampleRate];
    for rates inside the context's supported range the two runs succeed or
    throw alike.  A rate outside that range makes [createBuffer] throw. *)
Theorem decodeAudioData_rate_is_metadata le data ctx nc sr1 sr2 :
  (forall b1 b2,
     decodeAudioData le data ctx sr1 nc = Ok b1 ->
     decodeAudioData le data ctx sr2 nc = Ok b2 ->
     ab_channels b1 = ab_channels b2 /\ ab_length b1 = ab_length b2
     /\ ab_sampleRate b1 = sr1 /\ ab_sampleRate b2 = sr2)
  /\ (min_rate ctx <= sr1 <= max_rate ctx -> min_rate ctx <= sr2 <= max_rate ctx ->
      decodeAudioData le data ctx sr2 nc
      = match decodeAudioData le data ctx sr1 nc with
        | Ok b => Ok {| ab_sampleRate := sr2; ab_length := ab_length b;
                        ab_channels := ab_channels b |}
        | Throw e => Throw e
        end).
Proof.
  split.
  - intros b1 b2 H1 H2.
    apply decodeAudioData_ok_inv in H1. apply decodeAudioData_ok_inv in H2.
    destruct H1 as (_ & _ & _ & _ & ->). destruct H2 as (_ & _ & _ & _ & ->).
    cbn. repeat split; reflexivity.
  - intros Hr1 Hr2. rewrite !decodeAudioData_eq. cbv zeta.
    destruct (Nat.even (length data)); [|reflexivity].
    rewrite (proj2 (Z.leb_le (min_rate ctx) sr1)),
      (proj2 (Z.leb_le sr1 (max_rate ctx))),
      (proj2 (Z.leb_le (min_rate ctx) sr2)),
      (proj2 (Z.leb_le sr2 (max_rate ctx))) by lia.
    rewrite !andb_true_r.
    destruct (_ && _ && _); reflexivity.
Qed.

(** C7, counterexample: the same two bytes decode at 24000 Hz, while at the
    positive rate 1 Hz [createBuffer] throws NotSupportedError. *)
Lemma decodeAudioData_rate_rejected_cex :
  decodeAudioData true [x00; x40] browser_ctx 24000 1
  = Ok {| ab_sampleRate := 24000; ab_length := 1;
          ab_channels := [[Num (sample_value 16384)]] |}
  /\ decodeAudioData true [x00; x40] browser_ctx 1 1 = Throw NotSupportedError.
Proof. split; vm_compute; reflexivity. Qed.

(** C8: once the text analysis has returned a manifest (and the audio
    context has opened), the image and audio tasks are settled independently:
    the final state is [complete], keeps the manifest, holds each task's value
    or [null] for a failed one, and a failure of either (or both) only sets
    the partial-failure message. *)
Theorem handleLeap_partial_failure col app m audioCtx :
  trim (topic app) <> EmptyString ->
  includes (toLowerCase (topic app)) "aether"
  || includes (toLowerCase (topic app)) "event" = false ->
  generateManifest_c col (topic app) = Ok m ->
  newAudioContext col = Ok audioCtx ->
  let img := generateLeapImage_c col (imagePrompt m) in
  let aud := generateLeapAudio_c col (audioScript m) audioCtx in
  let s := state (fst (handleLeap col app)) in
  status s = complete /\ manifest s = Some m
  /\ imageData s = settled img /\ audioBuffer s = settled aud
  /\ (rejected img = true -> imageData s = None)
  /\ (rejected aud = true -> audioBuffer s = None)
  /\ error_msg s = (if rejected img || rejected aud
                    then Some partial_failure_msg else None).
Proof.
  intros Htrim Hkey Hm Hctx. cbv zeta. unfold handleLeap.
  rewrite (proj2 (String.eqb_neq _ _) Htrim), Hkey, Hm, Hctx. cbn.
  repeat split; auto.
  - destruct (generateLeapImage_c col (imagePrompt m)); [discriminate|reflexivity].
  - destruct (generateLeapAudio_c col (audioScript m) audioCtx);
      [discriminate|reflexivity].
Qed.

(** C9: every buffer [generateLeapAudio] returns comes from
    [decodeAudioData] called with sample rate 24000 and one channel: it is mono
    at 24000 Hz and its only channel holds the raw samples in order. *)
Theorem generateLeapAudio_mono_24000 atob le inlineData audioContext buf :
  generateLeapAudio atob le inlineData audioContext = Ok buf ->
  exists bytes,
    decodeAudioData le bytes audioContext 24000 1 = Ok buf
    /\ ab_sampleRate buf = 24000
    /\ ab_numberOfChannels buf = 1%nat
    /\ ab_channels buf
       = [map (fun i => Num (sample_value (nth i (int16_view le bytes) 0)))
              (seq 0 (Z.to_nat (ab_length buf)))].
Proof.
  unfold generateLeapAudio.
  destruct inlineData as [[|c s]|]; try discriminate.
  destruct (decode atob (String c s)) as [bytes|e]; cbn [bind]; [|discriminate].
  intros H. exists bytes. split; [exact H|].
  apply decodeAudioData_ok_inv in H. destruct H as (_ & _ & _ & _ & ->).
  cbn [ab_sampleRate ab_length ab_channels ab_numberOfChannels].
  split; [reflexivity|]. split; [reflexivity|].
  unfold deinterleave. change (Z.to_nat 1) with 1%nat. cbn [seq map].
  f_equal. apply map_ext. intros i.
  rewrite Nat.mul_1_r, Nat.add_0_r. reflexivity.
Qed.

(** C10: a non-blank topic whose lower-cased text contains "aether" or
    "event" opens the AetherGate screen, clears the topic and returns: no
    collaborator is called and the analysis state is left as it was. *)
Theorem handleLeap_gate_keyword col app :
  trim (topic app) <> EmptyString ->
  includes (toLowerCase (topic app)) "aether" = true
  \/ includes (toLowerCase (topic app)) "event" = true ->
  handleLeap col app
  = ({| topic := EmptyString; showGate := true; state := state app |}, []).
Proof.
  intros Htrim Hkey. unfold handleLeap.
  rewrite (proj2 (String.eqb_neq _ _) Htrim).
  destruct Hkey as [H|H]; rewrite H; [|rewrite orb_true_r]; reflexivity.
Qed.

(** ** The theorems at concrete inputs *)

Lemma decodeAudioData_deinterleaves_witness :
  decodeAudioData true [x00; x00; x00; x40; x00; x80; xff; x7f] browser_ctx 24000 2
  = Ok {| ab_sampleRate := 24000; ab_length := 2;
          ab_channels := [[Num (sample_value 0); Num (sample_value (-32768))];
                          [Num (sample_value 16384); Num (sample_value 32767)]] |}
  /\ 2 = Z.quot (Z.of_nat (length [x00; x00; x00; x40; x00; x80; xff; x7f] / 2)) 2
  /\ length [[Num (sample_value 0); Num (sample_value (-32768))];
             [Num (sample_value 16384); Num (sample_value 32767)]] = Z.to_nat 2
  /\ forall c i, (c < Z.to_nat 2)%nat -> (i < Z.to_nat 2)%nat ->
       (i * Z.to_nat 2 + c < length [x00; x00; x00; x40; x00; x80; xff; x7f] / 2)%nat
       /\ exists ch,
          nth_error [[Num (sample_value 0); Num (sample_value (-32768))];
                     [Num (sample_value 16384); Num (sample_value 32767)]] c = Some ch
          /\ nth_error ch i
             = Some (Num (sample_value
                  (nth (i * Z.to_nat 2 + c)
                       (int16_view true [x00; x00; x00; x40; x00; x80; xff; x7f]) 0))).
Proof.
  assert (H : decodeAudioData true [x00; x00; x00; x40; x00; x80; xff; x7f]
                browser_ctx 24000 2
              = Ok {| ab_sampleRate := 24000; ab_length := 2;
                      ab_channels := [[Num (sample_value 0); Num (sample_value (-32768))];
                                      [Num (sample_value 16384); Num (sample_value 32767)]] |})
    by (vm_compute; reflexivity).
  split; [exact H|].
  exact (decodeAudioData_deinterleaves true _ browser_ctx 24000 2 _ H).
Defined.

Lemma decodeAudioData_truncates_witness :
  Nat.even (length [x00; x40; x00; x80; x01; x00]) = true
  /\ exists buf,
     decodeAudioData true [x00; x40; x00; x80; x01; x00] browser_ctx 24000 2 = Ok buf
     /\ ab_length buf = Z.of_nat (length [x00; x40; x00; x80; x01; x00] / 2) / 2
     /\ length (ab_channels buf) = Z.to_nat 2
     /\ Forall (fun ch => length ch = Z.to_nat (ab_length buf)) (ab_channels buf).
Proof.
  split; [reflexivity|].
  destruct (decodeAudioData_truncates true [x00; x40; x00; x80; x01; x00]
              browser_ctx 24000 2) as [_ H].
  assert (Hn : 1 <= 2 <= max_channels browser_ctx) by (simpl; lia).
  assert (Hr : min_rate browser_ctx <= 24000 <= max_rate browser_ctx) by (simpl; lia).
  assert (Hf : 1 <= Z.of_nat (length [x00; x40; x00; x80; x01; x00] / 2) / 2)
    by (vm_compute; intro Hc; discriminate Hc).
  exact (proj2 (H eq_refl Hn Hr) Hf).
Defined.

Lemma new_Int16Array_host_order_witness :
  Nat.even (length [x01; x00; x00; x80]) = true
  /\ (1 < length [x01; x00; x00; x80] / 2)%nat
  /\ exists raw, new_Int16Array true [x01; x00; x00; x80] = Ok raw
     /\ length raw = (length [x01; x00; x00; x80] / 2)%nat
     /\ nth_error raw 1 = Some (byte_val x00 + 256 * to_int8 (byte_val x80)).
Proof.
  assert (H1 : Nat.even (length [x01; x00; x00; x80]) = true) by reflexivity.
  assert (H2 : (1 < length [x01; x00; x00; x80] / 2)%nat) by (simpl; lia).
  split; [exact H1|]. split; [exact H2|].
  exact (new_Int16Array_host_order true [x01; x00; x00; x80] 1 H1 H2).
Defined.

Lemma decodeAudioData_normalization_witness :
  1 <= max_channels browser_ctx
  /\ min_rate browser_ctx <= 24000 <= max_rate browser_ctx
  /\ exists buf,
     decodeAudioData true (encode_samples true [0; 16384; -32768; 32767])
       browser_ctx 24000 1 = Ok buf
     /\ ab_length buf = 4
     /\ ab_channels buf = [[Num (sample_value 0); Num (sample_value 16384);
                            Num (sample_value (-32768)); Num (sample_value 32767)]].
Proof.
  assert (H1 : 1 <= max_channels browser_ctx) by (simpl; lia).
  assert (H2 : min_rate browser_ctx <= 24000 <= max_rate browser_ctx) by (simpl; lia).
  split; [exact H1|]. split; [exact H2|].
  destruct (decodeAudioData_normalization true browser_ctx 24000 H1 H2)
    as [_ (buf & Hb & Hl & Hc & _)].
  exists buf. split; [exact Hb|]. split; [exact Hl|exact Hc].
Defined.

Lemma decodeAudioData_samples_in_range_witness :
  decodeAudioData true [x00; x80; xff; x7f] browser_ctx 24000 1
  = Ok {| ab_sampleRate := 24000; ab_length := 2;
          ab_channels := [[Num (sample_value (-32768)); Num (sample_value 32767)]] |}
  /\ Forall (Forall (fun v => exists q, v = Num q /\ (-1 <= q /\ q < 1)%Q))
            [[Num (sample_value (-32768)); Num (sample_value 32767)]].
Proof.
  assert (H : decodeAudioData true [x00; x80; xff; x7f] browser_ctx 24000 1
              = Ok {| ab_sampleRate := 24000; ab_length := 2;
                      ab_channels := [[Num (sample_value (-32768));
                                       Num (sample_value 32767)]] |})
    by (vm_compute; reflexivity).
  split; [exact H|].
  exact (decodeAudioData_samples_in_range true _ browser_ctx 24000 1 _ H).
Defined.

Lemma decodeAudioData_roundtrip_witness :
  1 <= max_channels browser_ctx
  /\ min_rate browser_ctx <= 24000 <= max_rate browser_ctx
  /\ (-1 <= 1 # 3 /\ 1 # 3 < 1)%Q
  /\ exists v,
     decodeAudioData true (encode_int16 true (quantize (1 # 3))) browser_ctx 24000 1
     = Ok {| ab_sampleRate := 24000; ab_length := 1; ab_channels := [[Num v]] |}
     /\ (Qabs (v - (1 # 3)) <= 1 # 32768)%Q.
Proof.
  assert (H1 : 1 <= max_channels browser_ctx) by (simpl; lia).
  assert (H2 : min_rate browser_ctx <= 24000 <= max_rate browser_ctx) by (simpl; lia).
  assert (H3 : (-1 <= 1 # 3 /\ 1 # 3 < 1)%Q)
    by (split; vm_compute; discriminate || reflexivity).
  split; [exact H1|]. split; [exact H2|]. split; [exact H3|].
  exact (decodeAudioData_roundtrip true browser_ctx 24000 (1 # 3) H1 H2 H3).
Defined.

Lemma decodeAudioData_rate_is_metadata_witness :
  decodeAudioData true [x00; x40] browser_ctx 24000 1
  = Ok {| ab_sampleRate := 24000; ab_length := 1;
          ab_channels := [[Num (sample_value 16384)]] |}
  /\ decodeAudioData true [x00; x40] browser_ctx 48000 1
     = Ok {| ab_sampleRate := 48000; ab_length := 1;
             ab_channels := [[Num (sample_value 16384)]] |}
  /\ min_rate browser_ctx <= 24000 <= max_rate browser_ctx
  /\ min_rate browser_ctx <= 48000 <= max_rate browser_ctx
  /\ (ab_channels {| ab_sampleRate := 24000; ab_length := 1;
                     ab_channels := [[Num (sample_value 16384)]] |}
      = ab_channels {| ab_sampleRate := 48000; ab_length := 1;
                       ab_channels := [[Num (sample_value 16384)]] |})
  /\ decodeAudioData true [x00; x40] browser_ctx 48000 1
     = match decodeAudioData true [x00; x40] browser_ctx 24000 1 with
       | Ok b => Ok {| ab_sampleRate := 48000; ab_length := ab_length b;
                       ab_channels := ab_channels b |}
       | Throw e => Throw e
       end.
Proof.
  assert (H1 : decodeAudioData true [x00; x40] browser_ctx 24000 1
               = Ok {| ab_sampleRate := 24000; ab_length := 1;
                       ab_channels := [[Num (sample_value 16384)]] |})
    by (vm_compute; reflexivity).
  assert (H2 : decodeAudioData true [x00; x40] browser_ctx 48000 1
               = Ok {| ab_sampleRate := 48000; ab_length := 1;
                       ab_channels := [[Num (sample_value 16384)]] |})
    by (vm_compute; reflexivity).
  assert (R1 : min_rate browser_ctx <= 24000 <= max_rate browser_ctx) by (simpl; lia).
  assert (R2 : min_rate browser_ctx <= 48000 <= max_rate browser_ctx) by (simpl; lia).
  destruct (decodeAudioData_rate_is_metadata true [x00; x40] browser_ctx 1 24000 48000)
    as [Hsame Hrange].
  split; [exact H1|]. split; [exact H2|]. split; [exact R1|]. split; [exact R2|].
  split; [exact (proj1 (Hsame _ _ H1 H2))|].
  exact (Hrange R1 R2).
Defined.

Lemma handleLeap_partial_failure_witness :
  trim "Black Holes" <> EmptyString
  /\ includes (toLowerCase "Black Holes") "aether"
     || includes (toLowerCase "Black Holes") "event" = false
  /\ status (state (fst (handleLeap demo_collaborators (demo_app "Black Holes"))))
     = complete
  /\ manifest (state (fst (handleLeap demo_collaborators (demo_app "Black Holes"))))
     = Some demo_manifest
  /\ imageData (state (fst (handleLeap demo_collaborators (demo_app "Black Holes"))))
     = None
  /\ error_msg (state (fst (handleLeap demo_collaborators (demo_app "Black Holes"))))
     = Some partial_failure_msg.
Proof.
  assert (H1 : trim "Black Holes" <> EmptyString) by (vm_compute; discriminate).
  assert (H2 : includes (toLowerCase "Black Holes") "aether"
               || includes (toLowerCase "Black Holes") "event" = false)
    by reflexivity.
  destruct (handleLeap_partial_failure demo_collaborators (demo_app "Black Holes")
              demo_manifest browser_ctx H1 H2 eq_refl eq_refl)
    as (Hs & Hm & _ & _ & Hi & _ & He).
  split; [exact H1|]. split; [exact H2|]. split; [exact Hs|]. split; [exact Hm|].
  split; [exact (Hi eq_refl)|exact He].
Defined.

Lemma generateLeapAudio_mono_24000_witness :
  generateLeapAudio demo_atob true (Some "AEA="%string) browser_ctx
  = Ok {| ab_sampleRate := 24000; ab_length := 1;
          ab_channels := [[Num (sample_value 16384)]] |}
  /\ exists bytes,
     decodeAudioData true bytes browser_ctx 24000 1
     = Ok {| ab_sampleRate := 24000; ab_length := 1;
             ab_channels := [[Num (sample_value 16384)]] |}
     /\ ab_numberOfChannels {| ab_sampleRate := 24000; ab_length := 1;
                               ab_channels := [[Num (sample_value 16384)]] |} = 1%nat.
Proof.
  assert (H : generateLeapAudio demo_atob true (Some "AEA="%string) browser_ctx
              = Ok {| ab_sampleRate := 24000; ab_length := 1;
                      ab_channels := [[Num (sample_value 16384)]] |})
    by (vm_compute; reflexivity).
  split; [exact H|].
  destruct (generateLeapAudio_mono_24000 demo_atob true _ browser_ctx _ H)
    as (bytes & Hd & _ & Hn & _).
  exists bytes. split; [exact Hd|exact Hn].
Defined.

Lemma handleLeap_gate_keyword_witness :
  trim "Event horizon" <> EmptyString
  /\ includes (toLowerCase "Event horizon") "event" = true
  /\ handleLeap demo_collaborators (demo_app "Event horizon")
     = ({| topic := EmptyString; showGate := true; state := idle_state |}, []).
Proof.
  assert (H1 : trim "Event horizon" <> EmptyString) by (vm_compute; discriminate).
  assert (H2 : includes (toLowerCase "Event horizon") "event" = true) by reflexivity.
  split; [exact H1|]. split; [exact H2|].
  exact (handleLeap_gate_keyword demo_collaborators (demo_app "Event horizon")
           H1 (or_intror H2)).
Defined.

(** ** Further properties of [handleLeap] *)

Lemma trim_start_all_ws s :
  forallb is_ws (list_ascii_of_string s) = true -> trim_start s = EmptyString.
Proof.
  induction s as [|c s IH]; [reflexivity|].
  cbn [list_ascii_of_string forallb trim_start]. intros H.
  apply andb_true_iff in H as [Hc Hs]. rewrite Hc. exact (IH Hs).
Qed.

Lemma prefix_iff p s :
  String.prefix p s = true <-> exists b, s = (p ++ b)%string.
Proof.
  revert s. induction p as [|c p IH]; intros s.
  - split; [intros _; exists s; reflexivity|destruct s; reflexivity].
  - destruct s as [|c' s]; cbn [String.prefix].
    + split; [discriminate|intros [b Hb]; discriminate Hb].
    + destruct (ascii_dec c c') as [<-|Hne].
      * rewrite IH. split; intros [b Hb]; exists b.
        -- rewrite Hb. reflexivity.
        -- injection Hb as Hb. exact Hb.
      * split; [discriminate|intros [b Hb]; injection Hb as Hb _; congruence].
Qed.

Lemma includes_iff s p :
  includes s p = true <-> exists a b, s = (a ++ p ++ b)%string.
Proof.
  induction s as [|c s IH].
  - cbn [includes]. rewrite orb_false_r, prefix_iff. split.
    + intros [b Hb]. exists EmptyString, b. exact Hb.
    + intros [a [b Hab]]. destruct a as [|c a]; [|discriminate Hab].
      exists b. exact Hab.
  - cbn [includes]. rewrite orb_true_iff, prefix_iff, IH. split.
    + intros [[b Hb]|[a [b Hab]]].
      * exists EmptyString, b. exact Hb.
      * exists (String c a), b. rewrite Hab. reflexivity.
    + intros [a [b Hab]]. destruct a as [|c' a].
      * left. exists b. exact Hab.
      * right. injection Hab as _ Hab. exists a, b. exact Hab.
Qed.

(** A topic made only of whitespace (including the empty topic) is
    ignored: the component state is unchanged and nothing is called. *)
Theorem handleLeap_blank_topic col app :
  forallb is_ws (list_ascii_of_string (topic app)) = true ->
  handleLeap col app = (app, []).
Proof.
  intros H. unfold handleLeap, trim. rewrite (trim_start_all_ws _ H). reflexivity.
Qed.

(** When the manifest request rejects, the analysis ends in the error
    status with the critical message; any manifest, image and audio of the
    previous run are cleared, and no other collaborator is called. *)
Theorem handleLeap_manifest_failure col app e :
  trim (topic app) <> EmptyString ->
  includes (toLowerCase (topic app)) "aether"
  || includes (toLowerCase (topic app)) "event" = false ->
  generateManifest_c col (topic app) = Throw e ->
  handleLeap col app
  = ({| topic := topic app; showGate := showGate app;
        state := {| status := error; manifest := None; imageData := None;
                    audioBuffer := None; error_msg := Some critical_failure_msg |} |},
     [CallManifest (topic app)]).
Proof.
  intros Htrim Hkey Hm. unfold handleLeap.
  rewrite (proj2 (String.eqb_neq _ _) Htrim), Hkey, Hm. reflexivity.
Qed.

(** When the manifest arrives but the AudioContext cannot be created, the
    state is the error status with the critical message and the new manifest
    kept; neither media service is called. *)
Theorem handleLeap_audio_context_failure col app m e :
  trim (topic app) <> EmptyString ->
  includes (toLowerCase (topic app)) "aether"
  || includes (toLowerCase (topic app)) "event" = false ->
  generateManifest_c col (topic app) = Ok m ->
  newAudioContext col = Throw e ->
  handleLeap col app
  = ({| topic := topic app; showGate := showGate app;
        state := {| status := error; manifest := Some m; imageData := None;
                    audioBuffer := None; error_msg := Some critical_failure_msg |} |},
     [CallManifest (topic app); OpenAudioContext]).
Proof.
  intros Htrim Hkey Hm Hc. unfold handleLeap.
  rewrite (proj2 (String.eqb_neq _ _) Htrim), Hkey, Hm, Hc. reflexivity.
Qed.

(** For a topic that is analyzed (not blank, no gate keyword), the final
    state and the calls do not depend on the previous analysis state, and the
    topic and the gate flag are left as they were. *)
Theorem handleLeap_forgets_previous_state col app1 app2 :
  topic app1 = topic app2 ->
  trim (topic app1) <> EmptyString ->
  includes (toLowerCase (topic app1)) "aether"
  || includes (toLowerCase (topic app1)) "event" = false ->
  state (fst (handleLeap col app1)) = state (fst (handleLeap col app2))
  /\ snd (handleLeap col app1) = snd (handleLeap col app2)
  /\ topic (fst (handleLeap col app1)) = topic app1
  /\ showGate (fst (handleLeap col app1)) = showGate app1.
Proof.
  intros Ht Htrim Hkey. unfold handleLeap. rewrite <- Ht.
  rewrite (proj2 (String.eqb_neq _ _) Htrim), Hkey.
  destruct (generateManifest_c col (topic app1)) as [m|e]; [|repeat split].
  destruct (newAudioContext col); repeat split.
Qed.


(** For a non-blank topic, [handleLeap] calls nothing exactly when the
    lower-cased topic contains "aether" or "event" as a contiguous
    substring. *)
Theorem handleLeap_gate_iff_substring col app :
  trim (topic app) <> EmptyString ->
  (snd (handleLeap col app) = []
   <-> (exists a b, toLowerCase (topic app) = (a ++ "aether" ++ b)%string)
       \/ (exists a b, toLowerCase (topic app) = (a ++ "event" ++ b)%string)).
Proof.
  intros Htrim. rewrite <- !includes_iff, <- orb_true_iff. unfold handleLeap.
  rewrite (proj2 (String.eqb_neq _ _) Htrim).
  destruct (includes (toLowerCase (topic app)) "aether"
            || includes (toLowerCase (topic app)) "event").
  - cbn. tauto.
  - destruct (generateManifest_c col (topic app)); [destruct (newAudioContext col)|];
      cbn; split; discriminate.
Qed.

(** ** Further properties of [generateLeapAudio] *)

(** For a non-empty payload that [atob] turns into the code units [codes],
    on a context that accepts mono 24000 Hz: an odd number of bytes throws
    RangeError, zero bytes throw NotSupportedError, and otherwise the result
    is a mono 24000 Hz buffer of [length codes / 2] frames holding the
    samples of the bytes in order. *)
Theorem generateLeapAudio_outcomes atob le base64Audio codes audioContext :
  base64Audio <> EmptyString ->
  atob base64Audio = Ok codes ->
  1 <= max_channels audioContext ->
  min_rate audioContext <= 24000 <= max_rate audioContext ->
  generateLeapAudio atob le (Some base64Audio) audioContext
  = if negb (Nat.even (length codes)) then Throw RangeError
    else if (length codes =? 0)%nat then Throw NotSupportedError
    else Ok {| ab_sampleRate := 24000;
               ab_length := Z.of_nat (length codes / 2);
               ab_channels :=
                 [map (fun i => Num (sample_value
                                       (nth i (int16_view le (map byte_of_Z codes)) 0)))
                      (seq 0 (length codes / 2))] |}.
Proof.
  intros Hs Ha Hc Hr. unfold generateLeapAudio.
  assert (Hd : decode atob base64Audio = Ok (map byte_of_Z codes))
    by (unfold decode; rewrite Ha; reflexivity).
  destruct base64Audio as [|c s]; [congruence|].
  rewrite Hd. cbn [bind]. rewrite decodeAudioData_eq, length_map. cbv zeta.
  rewrite Z.quot_1_r.
  destruct (Nat.even (length codes)) eqn:Ev; [|reflexivity]. cbn [negb].
  assert (E1 : (1 <=? 1) && (1 <=? max_channels audioContext) = true)
    by (apply andb_true_iff; split; apply Z.leb_le; lia).
  assert (E2 : (min_rate audioContext <=? 24000) = true) by (apply Z.leb_le; lia).
  assert (E3 : (24000 <=? max_rate audioContext) = true) by (apply Z.leb_le; lia).
  rewrite E1, E2, E3.
  apply Nat.even_spec in Ev. destruct Ev as [k Hk]. rewrite Hk.
  replace (2 * k / 2)%nat with k by (rewrite Nat.mul_comm, Nat.div_mul; lia).
  destruct k as [|k].
  - reflexivity.
  - replace (2 * S k =? 0)%nat with false by (symmetry; apply Nat.eqb_neq; lia).
    replace (1 <=? Z.of_nat (S k)) with true by (symmetry; apply Z.leb_le; lia).
    cbn [andb]. rewrite Nat2Z.id. unfold deinterleave.
    change (Z.to_nat 1) with 1%nat. change (seq 0 1) with [0%nat].
    cbn [map]. do 3 f_equal.
    apply map_ext. intros i. rewrite Nat.mul_1_r, Nat.add_0_r. reflexivity.
Qed.

(** With the speech service's payload passed to [generateLeapAudio]: if the
    payload is missing or empty, or decodes to an odd number of bytes or to no
    bytes, the analysis still completes with the manifest, but without audio
    and with the partial-failure message. *)
Theorem handleLeap_bad_audio_payload col app m audioCtx atob le inline :
  trim (topic app) <> EmptyString ->
  includes (toLowerCase (topic app)) "aether"
  || includes (toLowerCase (topic app)) "event" = false ->
  generateManifest_c col (topic app) = Ok m ->
  newAudioContext col = Ok audioCtx ->
  generateLeapAudio_c col (audioScript m) audioCtx
  = generateLeapAudio atob le inline audioCtx ->
  (inline = None \/ inline = Some EmptyString
   \/ exists base64Audio codes,
        inline = Some base64Audio /\ atob base64Audio = Ok codes
        /\ (Nat.even (length codes) = false \/ codes = [])) ->
  let s := state (fst (handleLeap col app)) in
  status s = complete /\ manifest s = Some m /\ audioBuffer s = None
  /\ error_msg s = Some partial_failure_msg.
Proof.
  intros Htrim Hkey Hm Hc Haud Hbad. cbv zeta.
  assert (Hrej : exists e, generateLeapAudio atob le inline audioCtx = Throw e).
  { destruct Hbad as [->|[->|(b & codes & -> & Ha & Hodd)]];
      [eexists; reflexivity|eexists; reflexivity|].
    destruct b as [|c s]; [eexists; reflexivity|].
    unfold generateLeapAudio, decode. rewrite Ha. cbn [bind].
    rewrite decodeAudioData_eq, length_map.
    destruct Hodd as [Hodd| ->].
    - rewrite Hodd. eexists; reflexivity.
    - cbn. rewrite andb_false_r. eexists; reflexivity. }
  destruct Hrej as [e He].
  unfold handleLeap. rewrite (proj2 (String.eqb_neq _ _) Htrim), Hkey, Hm, Hc.
  cbn [fst state status manifest audioBuffer error_msg set_state].
  rewrite Haud, He. cbn [settled rejected]. rewrite orb_true_r. repeat split.
Qed.

(** ** Properties of [generateLeapImage] *)





(** ** Properties of the dashboard's playback *)

Lemma nth_error_snoc {A} (l : list A) x : nth_error (l ++ [x]) (length l) = Some x.
Proof. rewrite nth_error_app2, Nat.sub_diag by lia. reflexivity. Qed.

Lemma dash_step_playing_inv audioBuffer d e :
  e <> Unmount -> playing_inv d -> playing_inv (dash_step audioBuffer d e).
Proof.
  intros He H0. destruct e as [| n |]; [| |congruence].
  - unfold dash_step, toggleAudio.
    destruct audioBuffer; [|exact H0].
    destruct (negb (audioContextRef d)); [exact H0|].
    destruct (isPlaying d).
    + intros Hc; discriminate Hc.
    + intros _. exists (length (sources d)). split; [reflexivity|].
      apply nth_error_snoc.
  - intros Hc; discriminate Hc.
Qed.

(** While the dashboard is mounted, whenever [isPlaying] is true,
    [sourceRef] holds a source that is playing, whatever the sequence of
    clicks and [ended] events. *)
Theorem dashboard_playing_has_source audioBuffer evs :
  ~ In Unmount evs ->
  let d := dash_run audioBuffer evs in
  isPlaying d = true ->
  exists s, sourceRef d = Some s /\ nth_error (sources d) s = Some Playing.
Proof.
  intros Hu. cbv zeta. unfold dash_run.
  assert (H0 : playing_inv dashboard_mounted) by (intros Hc; discriminate Hc).
  revert H0 Hu. generalize dashboard_mounted.
  induction evs as [|e evs IH]; intros d0 H0 Hu; [exact H0|].
  cbn [fold_left]. apply IH; [|intros Hin; apply Hu; right; exact Hin].
  apply dash_step_playing_inv; [|exact H0].
  intros ->. apply Hu. left. reflexivity.
Qed.

(** The converse fails: play, stop, play again, and the [ended] event of the
    first (stopped) source arriving late resets [isPlaying] while the second
    source plays. The next click then starts a third source without stopping
    the second, and unmounting stops only the third. *)
Theorem dashboard_stale_onended b :
  let d4 := dash_run (Some b) [Toggle; Toggle; Toggle; SourceEnded 0] in
  let d5 := dash_run (Some b) [Toggle; Toggle; Toggle; SourceEnded 0; Toggle] in
  isPlaying d4 = false /\ sourceRef d4 = Some 1%nat /\ sources d4 = [Stopped; Playing]
  /\ isPlaying d5 = true /\ sourceRef d5 = Some 2%nat
  /\ sources d5 = [Stopped; Playing; Playing]
  /\ sources (unmount d5) = [Stopped; Playing; Stopped].
Proof.
  repeat split.
Qed.

(** ** Properties of the AetherGate *)

Lemma slice_from_end_snoc {A} (l : list A) x :
  slice_from_end 7 (l ++ [x]) = slice_from_end 6 l ++ [x].
Proof.
  unfold slice_from_end. rewrite length_app. cbn [length].
  replace (length l + 1 - 7)%nat with (length l - 6)%nat by lia.
  rewrite skipn_app. f_equal.
  replace (length l - 6 - length l)%nat with 0%nat by lia. reflexivity.
Qed.

Lemma slice_from_end_idem {A} n (l : list A) :
  slice_from_end n (slice_from_end (S n) l) = slice_from_end n l.
Proof.
  unfold slice_from_end. rewrite length_skipn, skipn_skipn. f_equal. lia.
Qed.

(** Starting from the empty log, [addLog] keeps the last seven messages,
    each prefixed with "> ", oldest first. *)
Theorem addLog_window msgs :
  fold_left addLog msgs []
  = slice_from_end 7 (map (fun msg => ("> " ++ msg)%string) msgs)
  /\ (length (fold_left addLog msgs []) <= 7)%nat.
Proof.
  assert (H : fold_left addLog msgs []
              = slice_from_end 7 (map (fun msg => ("> " ++ msg)%string) msgs)).
  { induction msgs as [|msgs m IH] using rev_ind; [reflexivity|].
    rewrite fold_left_app, IH, map_app. cbn [fold_left map].
    unfold addLog. rewrite slice_from_end_idem, slice_from_end_snoc. reflexivity. }
  split; [exact H|]. rewrite H. unfold slice_from_end. rewrite length_skipn. lia.
Qed.

(** After [n] runs of the interval callback ([n] at most the number of
    glyphs), the gate is dialing with glyph [n - 1] active, the triads
    [0 .. n-1] have pushed their three oscillators each, and the log shows
    the last seven of the start messages and the [n] "LOCKING COORDINATE"
    lines. *)
Theorem gate_dialing n :
  (n <= length DESTINATION_GLYPHS)%nat ->
  let g := Nat.iter n gate_tick gate_started in
  phase g = dialing /\ interval_on g = true /\ step g = n
  /\ activeGlyph g = Z.of_nat n - 1
  /\ oscillatorsRef g = flat_map triad_oscillators (seq 0 n)
  /\ log g = slice_from_end 7
               (["> INITIATING AETHER GATE PROTOCOL v1.0";
                 "> BYPASSING SECURITY LAYER 7..."]%string
                ++ map (fun i => ("> LOCKING COORDINATE: "
                                  ++ nth i DESTINATION_GLYPHS "")%string)
                       (seq 0 n)).
Proof.
  cbv zeta. induction n as [|n IH]; intros Hn.
  - repeat split.
  - destruct IH as (Hp & Hi & Hs & Ha & Ho & Hl); [lia|].
    rewrite Nat.iter_succ. set (g := Nat.iter n gate_tick gate_started) in *.
    unfold gate_tick. rewrite Hi, Hs. cbn [negb].
    replace (Nat.leb (length DESTINATION_GLYPHS) n) with false
      by (symmetry; apply Nat.leb_gt; lia).
    cbn [phase interval_on step activeGlyph oscillatorsRef log].
    repeat split; try assumption.
    + lia.
    + rewrite Ho, seq_S, flat_map_app. cbn [flat_map]. rewrite app_nil_r.
      reflexivity.
    + rewrite Hl, seq_S, map_app, app_assoc. cbn [map].
      unfold addLog. rewrite slice_from_end_idem, slice_from_end_snoc. reflexivity.
Qed.

Lemma gate_iter_stopped k g :
  interval_on g = false -> Nat.iter k gate_tick g = g.
Proof.
  intros H. induction k as [|k IH]; [reflexivity|].
  rewrite Nat.iter_succ, IH. unfold gate_tick. rewrite H. reflexivity.
Qed.

(** The run after the last glyph clears the interval and finalizes: the
    gate is locked with the glyph index past the last, the 27 triad
    oscillators are tracked (the 111 Hz one is not), the log ends with the
    two finalize messages, and later runs change nothing. *)
Theorem gate_finalized k :
  let g := Nat.iter (S (length DESTINATION_GLYPHS)) gate_tick gate_started in
  Nat.iter (k + S (length DESTINATION_GLYPHS)) gate_tick gate_started = g
  /\ phase g = locked /\ interval_on g = false
  /\ activeGlyph g = Z.of_nat (length DESTINATION_GLYPHS)
  /\ oscillatorsRef g = flat_map triad_oscillators (seq 0 (length DESTINATION_GLYPHS))
  /\ length (oscillatorsRef g) = (3 * length DESTINATION_GLYPHS)%nat
  /\ log g = ["> LOCKING COORDINATE: ABYSS"; "> LOCKING COORDINATE: VOID";
              "> LOCKING COORDINATE: TAURUS"; "> LOCKING COORDINATE: EAGLE";
              "> LOCKING COORDINATE: SOURCE"; "> ALL CHEVRONS LOCKED.";
              "> COHERENCE WAVE ACTIVE."]%string.
Proof.
  cbv zeta. rewrite Nat.iter_add.
  assert (Hoff : interval_on (Nat.iter (S (length DESTINATION_GLYPHS)) gate_tick
                                       gate_started) = false)
    by (vm_compute; reflexivity).
  rewrite (gate_iter_stopped k _ Hoff).
  repeat split; vm_compute; reflexivity.
Qed.

(** ** The further properties at concrete inputs *)

Lemma handleLeap_blank_topic_witness :
  forallb is_ws (list_ascii_of_string (topic (demo_app "   "))) = true
  /\ handleLeap demo_collaborators (demo_app "   ") = (demo_app "   ", []).
Proof.
  assert (H : forallb is_ws (list_ascii_of_string (topic (demo_app "   "))) = true)
    by reflexivity.
  split; [exact H|exact (handleLeap_blank_topic demo_collaborators _ H)].
Defined.

Lemma handleLeap_manifest_failure_witness :
  trim "Black Holes" <> EmptyString
  /\ handleLeap no_text_collaborators (demo_app "Black Holes")
     = ({| topic := "Black Holes"; showGate := false;
           state := {| status := error; manifest := None; imageData := None;
                       audioBuffer := None;
                       error_msg := Some critical_failure_msg |} |},
        [CallManifest "Black Holes"]).
Proof.
  assert (H1 : trim "Black Holes" <> EmptyString) by (vm_compute; discriminate).
  split; [exact H1|].
  exact (handleLeap_manifest_failure no_text_collaborators (demo_app "Black Holes")
           (Error "No text returned from Gemini") H1 eq_refl eq_refl).
Defined.

Lemma handleLeap_audio_context_failure_witness :
  trim "Black Holes" <> EmptyString
  /\ handleLeap no_audio_context_collaborators (demo_app "Black Holes")
     = ({| topic := "Black Holes"; showGate := false;
           state := {| status := error; manifest := Some demo_manifest;
                       imageData := None; audioBuffer := None;
                       error_msg := Some critical_failure_msg |} |},
        [CallManifest "Black Holes"; OpenAudioContext]).
Proof.
  assert (H1 : trim "Black Holes" <> EmptyString) by (vm_compute; discriminate).
  split; [exact H1|].
  exact (handleLeap_audio_context_failure no_audio_context_collaborators
           (demo_app "Black Holes") demo_manifest NotSupportedError
           H1 eq_refl eq_refl eq_refl).
Defined.

Lemma handleLeap_forgets_previous_state_witness :
  trim "Black Holes" <> EmptyString
  /\ state (fst (handleLeap demo_collaborators (demo_app "Black Holes")))
     = state (fst (handleLeap demo_collaborators
                    {| topic := "Black Holes"; showGate := false;
                       state := {| status := complete; manifest := Some demo_manifest;
                                   imageData := Some "iVBORw0KGgo="%string;
                                   audioBuffer := Some demo_buffer;
                                   error_msg := None |} |})).
Proof.
  assert (H1 : trim "Black Holes" <> EmptyString) by (vm_compute; discriminate).
  split; [exact H1|].
  exact (proj1 (handleLeap_forgets_previous_state demo_collaborators
                  (demo_app "Black Holes") _ eq_refl H1 eq_refl)).
Defined.


Lemma handleLeap_gate_iff_substring_witness :
  trim "An Event Horizon" <> EmptyString
  /\ snd (handleLeap demo_collaborators (demo_app "An Event Horizon")) = [].
Proof.
  assert (H1 : trim "An Event Horizon" <> EmptyString) by (vm_compute; discriminate).
  split; [exact H1|].
  apply (proj2 (handleLeap_gate_iff_substring demo_collaborators
                  (demo_app "An Event Horizon") H1)).
  right. exists "an "%string, " horizon"%string. reflexivity.
Defined.

Lemma generateLeapAudio_outcomes_witness :
  "AEA="%string <> EmptyString
  /\ 1 <= max_channels browser_ctx
  /\ min_rate browser_ctx <= 24000 <= max_rate browser_ctx
  /\ generateLeapAudio demo_atob true (Some "AEA="%string) browser_ctx
     = Ok {| ab_sampleRate := 24000; ab_length := 1;
             ab_channels := [[Num (sample_value 16384)]] |}.
Proof.
  assert (H1 : "AEA="%string <> EmptyString) by discriminate.
  assert (H2 : 1 <= max_channels browser_ctx) by (simpl; lia).
  assert (H3 : min_rate browser_ctx <= 24000 <= max_rate browser_ctx) by (simpl; lia).
  split; [exact H1|]. split; [exact H2|]. split; [exact H3|].
  rewrite (generateLeapAudio_outcomes demo_atob true "AEA=" [0; 64] browser_ctx
             H1 eq_refl H2 H3).
  vm_compute. reflexivity.
Defined.

Lemma handleLeap_bad_audio_payload_witness :
  trim "Black Holes" <> EmptyString
  /\ audioBuffer (state (fst (handleLeap odd_audio_collaborators
                                         (demo_app "Black Holes")))) = None
  /\ error_msg (state (fst (handleLeap odd_audio_collaborators
                                       (demo_app "Black Holes"))))
     = Some partial_failure_msg.
Proof.
  assert (H1 : trim "Black Holes" <> EmptyString) by (vm_compute; discriminate).
  assert (H6 : Some "AA=="%string = None \/ Some "AA=="%string = Some EmptyString
               \/ exists base64Audio codes,
                    Some "AA=="%string = Some base64Audio
                    /\ one_byte_atob base64Audio = Ok codes
                    /\ (Nat.even (length codes) = false \/ codes = [])).
  { right. right. exists "AA=="%string, [0]. split; [reflexivity|].
    split; [reflexivity|]. left. reflexivity. }
  destruct (handleLeap_bad_audio_payload odd_audio_collaborators (demo_app "Black Holes")
              demo_manifest browser_ctx one_byte_atob true (Some "AA=="%string)
              H1 eq_refl eq_refl eq_refl eq_refl H6) as (_ & _ & Ha & He).
  split; [exact H1|]. split; [exact Ha|exact He].
Defined.



Lemma dashboard_playing_has_source_witness :
  ~ In Unmount [Toggle; Toggle; Toggle]
  /\ isPlaying (dash_run (Some demo_buffer) [Toggle; Toggle; Toggle]) = true
  /\ exists s, sourceRef (dash_run (Some demo_buffer) [Toggle; Toggle; Toggle]) = Some s
     /\ nth_error (sources (dash_run (Some demo_buffer) [Toggle; Toggle; Toggle])) s
        = Some Playing.
Proof.
  assert (H : ~ In Unmount [Toggle; Toggle; Toggle])
    by (intros [Hc|[Hc|[Hc|[]]]]; discriminate Hc).
  split; [exact H|]. split; [reflexivity|].
  exact (dashboard_playing_has_source (Some demo_buffer) _ H eq_refl).
Defined.

Lemma gate_dialing_witness :
  (4 <= length DESTINATION_GLYPHS)%nat
  /\ activeGlyph (Nat.iter 4 gate_tick gate_started) = 3
  /\ log (Nat.iter 4 gate_tick gate_started)
     = ["> INITIATING AETHER GATE PROTOCOL v1.0";
        "> BYPASSING SECURITY LAYER 7...";
        "> LOCKING COORDINATE: ALPHA"; "> LOCKING COORDINATE: ORION";
        "> LOCKING COORDINATE: PEGASUS"; "> LOCKING COORDINATE: EARTH"]%string.
Proof.
  assert (H : (4 <= length DESTINATION_GLYPHS)%nat) by (simpl; lia).
  destruct (gate_dialing 4 H) as (_ & _ & _ & Ha & _ & Hl).
  split; [exact H|]. split; [exact Ha|]. rewrite Hl. vm_compute. reflexivity.
Defined.
